(** * SAGA solver of [tick.optim.solver.saga]

    A shallow embedding of the Python wrapper class [SAGA]
    (file [tick/optim/solver/saga.py]) together with models of the
    collaborators it delegates to: the base class [SolverFirstOrderSto]
    and the wrapped native engine [_SAGA] with its sampler, its gradient
    memory and its step.

    Python floats are rendered as rationals ([Q]); the identities proved
    below are therefore exact and say nothing about rounding. *)

From Stdlib Require Import ZArith QArith List String Ascii Bool Lia
  Permutation Arith Setoid Morphisms.
Import ListNotations.

Set Implicit Arguments.

(** ** Python values, exceptions and the state-and-exception monad *)

Module Py.

(** An exception instance: the name of its class and its message. *)
Record PyExc : Type := mkExc { exc_type : string; exc_msg : string }.

Definition ValueError (msg : string) : PyExc := mkExc "ValueError" msg.
Definition KeyError (msg : string) : PyExc := mkExc "KeyError" msg.
Definition IndexError (msg : string) : PyExc := mkExc "IndexError" msg.
Definition AttributeError (msg : string) : PyExc :=
  mkExc "AttributeError" msg.

(** A Python object as far as [isinstance] can see it: the names of the
    classes of its method resolution order, most specific first. *)
Record PyObject : Type := mkObj { ob_mro : list string }.

Definition isinstance (o : PyObject) (cls : string) : bool :=
  existsb (String.eqb cls) (ob_mro o).

(** Methods run on [self] and either return or raise; the state that a
    raising method leaves behind is kept, as in Python. *)
Definition M (S A : Type) : Type := S -> (PyExc + A) * S.

Definition ret {S A} (a : A) : M S A := fun s => (inr a, s).
Definition raise {S A} (e : PyExc) : M S A := fun s => (inl e, s).
Definition bind {S A B} (m : M S A) (k : A -> M S B) : M S B :=
  fun s => match m s with
           | (inl e, s') => (inl e, s')
           | (inr a, s') => k a s'
           end.
Definition get {S} : M S S := fun s => (inr s, s).
Definition put {S} (s : S) : M S unit := fun _ => (inr tt, s).
Definition lift {S A} (r : PyExc + A) : M S A := fun s => (r, s).

(** The double quote character, and a string made of it. *)
Definition dquote : string := String (ascii_of_nat 34) EmptyString.

(** [sep.join(l)] *)
Fixpoint join (sep : string) (l : list string) : string :=
  match l with
  | [] => EmptyString
  | [x] => x
  | x :: rest => (x ++ sep ++ join sep rest)%string
  end.

(** [template.format] applied to [args], for templates whose only fields are the
    automatic ones, written as an opening brace followed at once by a
    closing brace.  A field without an argument left raises
    [IndexError]. *)
Fixpoint format (template : string) (args : list string)
  : PyExc + string :=
  match template with
  | EmptyString => inr EmptyString
  | String c rest =>
      match rest with
      | String c' rest' =>
          if (Ascii.eqb c "{" && Ascii.eqb c' "}")%bool then
            match args with
            | [] =>
                inl (IndexError
                       "Replacement index out of range for positional args tuple")
            | a :: args' =>
                match format rest' args' with
                | inl e => inl e
                | inr s => inr (a ++ s)%string
                end
            end
          else
            match format rest args with
            | inl e => inl e
            | inr s => inr (String c s)
            end
      | EmptyString => inr (String c EmptyString)
      end
  end.

(** A [dict] with string keys, kept in insertion order. *)
Definition dict (V : Type) : Type := list (string * V).

Definition keys {V} (d : dict V) : list string := List.map fst d.
Definition items {V} (d : dict V) : list (string * V) := d.

Fixpoint lookup {V} (d : dict V) (k : string) : option V :=
  match d with
  | [] => None
  | (k', v) :: d' => if String.eqb k' k then Some v else lookup d' k
  end.

(** [k in d] *)
Definition contains {V} (d : dict V) (k : string) : bool :=
  match lookup d k with Some _ => true | None => false end.

(** [d[k]] *)
Definition getitem {V} (d : dict V) (k : string) : PyExc + V :=
  match lookup d k with
  | Some v => inr v
  | None => inl (KeyError k)
  end.

(** [s] occurs in [t] as a contiguous run of characters. *)
Definition Substring (s t : string) : Prop :=
  exists pre post, t = (pre ++ s ++ post)%string.

End Py.

Declare Scope py_scope.
Delimit Scope py_scope with py.
Notation "x <- m ;; k" := (Py.bind m (fun x => k))
  (at level 61, m at next level, right associativity) : py_scope.
Notation "m ;;; k" := (Py.bind m (fun _ => k))
  (at level 61, right associativity) : py_scope.

(** ** The wrapped native solver [_SAGA] *)

Module Native.

(** The native sampling policies behind [self._rand_type]. *)
Inductive RandType : Type := Unif | Perm.

(** The three constants [_SAGA.VarianceReductionMethod_*].  Their
    values belong to the compiled extension, which the wrapper only
    names; they are taken as given. *)
Record VarianceReductionMethod : Type := mkVRM {
  VarianceReductionMethod_Last : Z;
  VarianceReductionMethod_Average : Z;
  VarianceReductionMethod_Random : Z
}.

(** Modelled from the spec: the native class [_SAGA] is not part of the
    Python source.  It keeps the five constructor arguments in the
    order the wrapper passes them, and the variance-reduction method,
    which starts at the documented default [last]. *)
Record _SAGA : Type := mk_SAGA {
  n_epoch_size : Z;
  n_tol : Q;
  n_rand_type : RandType;
  n_step : Q;
  n_seed : Z;
  n_variance_reduction : Z
}.

Definition new (E : VarianceReductionMethod) (epoch_size : Z) (tol : Q)
    (rand_type : RandType) (step : Q) (seed : Z) : _SAGA :=
  mk_SAGA epoch_size tol rand_type step seed
          (VarianceReductionMethod_Last E).

Definition get_variance_reduction (s : _SAGA) : Z :=
  n_variance_reduction s.

Definition set_variance_reduction (v : Z) (s : _SAGA) : _SAGA :=
  mk_SAGA (n_epoch_size s) (n_tol s) (n_rand_type s) (n_step s)
          (n_seed s) v.

End Native.

(** ** The base class [SolverFirstOrderSto] *)

Module Base.
Import Py Native.

Definition ConfigurationError (msg : string) : PyExc :=
  mkExc "ConfigurationError" msg.

(** The attributes the base class holds for [SAGA]. *)
Record SolverFirstOrderSto : Type := mkBase {
  step : option Q;
  epoch_size : option Z;
  _rand_type : RandType;
  tol : Q;
  max_iter : Z;
  verbose : bool;
  print_every : Z;
  record_every : Z;
  seed : Z;
  model : option PyObject
}.

Definition rand_type_of_string (s : string) : option RandType :=
  if String.eqb s "unif" then Some Unif
  else if String.eqb s "perm" then Some Perm
  else None.

(** Modelled from the spec: [SolverFirstOrderSto.__init__] is not part
    of the source file.  It keeps the construction parameters and
    rejects an unknown [rand_type] and a negative [tol] or [max_iter]
    with a [ConfigurationError]; no model is attached yet. *)
Definition __init__ (step : option Q) (epoch_size : option Z)
    (rand_type : string) (tol : Q) (max_iter : Z) (verbose : bool)
    (print_every record_every : Z) (seed : Z)
  : PyExc + SolverFirstOrderSto :=
  match rand_type_of_string rand_type with
  | None => inl (ConfigurationError "rand_type should be one of unif, perm")
  | Some rt =>
      if negb (Qle_bool 0 tol) then
        inl (ConfigurationError "tol should be non-negative")
      else if (max_iter <? 0)%Z then
        inl (ConfigurationError "max_iter should be non-negative")
      else
        inr (mkBase step epoch_size rt tol max_iter verbose print_every
                    record_every seed None)
  end.

(** Modelled from the spec: [SolverFirstOrderSto.set_model] is not part
    of the source file.  It attaches the model and returns the
    solver. *)
Definition set_model (m : PyObject) (b : SolverFirstOrderSto)
  : SolverFirstOrderSto :=
  mkBase (step b) (epoch_size b) (_rand_type b) (tol b) (max_iter b)
         (verbose b) (print_every b) (record_every b) (seed b) (Some m).

End Base.

(** ** The class [SAGA] of [saga.py] *)

Module SAGA.
Import Py Native.
Local Open Scope py_scope.
Local Open Scope string_scope.

Section WithEnum.
Variable E : VarianceReductionMethod.

(** [variance_reduction_methods_mapper] *)
Definition variance_reduction_methods_mapper : dict Z :=
  [ ("last", VarianceReductionMethod_Last E);
    ("avg", VarianceReductionMethod_Average E);
    ("rand", VarianceReductionMethod_Random E) ].

(** An instance: the attributes of the base class and [self._solver],
    which is absent until [__init__] assigns it. *)
Record t : Type := mkSAGA {
  super : Base.SolverFirstOrderSto;
  _solver : option _SAGA
}.

(** Reading [self._solver] *)
Definition the_solver : M t _SAGA :=
  fun self =>
    match _solver self with
    | Some s => (inr s, self)
    | None =>
        (inl (AttributeError "'SAGA' object has no attribute '_solver'"),
         self)
    end.

(** The getter of the property [variance_reduction] *)
Definition variance_reduction : M t (option string) :=
  s <- the_solver ;;
  ret (option_map fst
         (find (fun kv => (snd kv =? get_variance_reduction s)%Z)
               (items variance_reduction_methods_mapper))).

Definition variance_reduction_template : string :=
  "variance_reduction should be one of " ++ dquote ++ "{}" ++ dquote
    ++ ", got " ++ dquote ++ "{}" ++ dquote ++ ".".

(** The setter of the property [variance_reduction] *)
Definition set_variance_reduction (val : string) : M t unit :=
  if negb (contains variance_reduction_methods_mapper val) then
    msg <- lift (format variance_reduction_template
                   [ join ", " (keys variance_reduction_methods_mapper);
                     val ]) ;;
    raise (ValueError msg)
  else
    s <- the_solver ;;
    v <- lift (getitem variance_reduction_methods_mapper val) ;;
    self <- get ;;
    put (mkSAGA (super self)
                (Some (Native.set_variance_reduction v s))).

(** The arguments of the constructor; [None] is Python's [None]. *)
Record InitArgs : Type := mkArgs {
  a_step : option Q;
  a_epoch_size : option Z;
  a_rand_type : string;
  a_tol : Q;
  a_max_iter : Z;
  a_verbose : bool;
  a_print_every : Z;
  a_record_every : Z;
  a_seed : Z;
  a_variance_reduction : string
}.

(** The defaults of the signature of [__init__]: what an argument
    left unset is. *)
Definition default_args : InitArgs :=
  mkArgs None None "unif" 0%Q 100%Z true 10%Z 1%Z (-1)%Z "last".

(** The body of [__init__] after the call of the base class, which
    has made [self]. *)
Definition __init__body (variance_reduction : string) : M t unit :=
  self <- get ;;
  let step := Base.step (super self) in
  let step := match step with None => 0%Q | Some s => s end in
  let epoch_size := Base.epoch_size (super self) in
  let epoch_size :=
    match epoch_size with None => 0%Z | Some e => e end in
  put (mkSAGA (super self)
         (Some (Native.new E epoch_size (Base.tol (super self))
                  (Base._rand_type (super self)) step
                  (Base.seed (super self))))) ;;;
  set_variance_reduction variance_reduction.

(** [__init__]: the final state of [self] together with the outcome. *)
Definition __init__ (a : InitArgs) : PyExc + (PyExc + unit) * t :=
  match Base.__init__ (a_step a) (a_epoch_size a) (a_rand_type a)
          (a_tol a) (a_max_iter a) (a_verbose a) (a_print_every a)
          (a_record_every a) (a_seed a) with
  | inl e => inl e
  | inr b => inr (__init__body (a_variance_reduction a) (mkSAGA b None))
  end.

(** The expression [SAGA(...)]: the caller receives the instance only
    when [__init__] returns; when it raises, the exception is all the
    caller gets. *)
Definition new (a : InitArgs) : PyExc + t :=
  match __init__ a with
  | inl e => inl e
  | inr (inl e, _) => inl e
  | inr (inr _, self) => inr self
  end.

(** [set_model] *)
Definition set_model (model : PyObject) : M t t :=
  if isinstance model "ModelGeneralizedLinear" then
    self <- get ;;
    put (mkSAGA (Base.set_model model (super self)) (_solver self)) ;;;
    self <- get ;;
    ret self
  else
    raise (ValueError
             "SAGA accepts only childs of `ModelGeneralizedLinear`").

End WithEnum.

(** The constants of the native build, for running the model on
    examples. *)
Definition tick_enum : VarianceReductionMethod := mkVRM 1 2 3.

End SAGA.

(** ** Dense vectors of rationals *)

Module Vec.

Definition vec : Type := list Q.

Definition zeros (d : nat) : vec := repeat 0%Q d.

Fixpoint map2 (f : Q -> Q -> Q) (u v : vec) : vec :=
  match u, v with
  | a :: u', b :: v' => f a b :: map2 f u' v'
  | _, _ => []
  end.

Definition add (u v : vec) : vec := map2 Qplus u v.
Definition sub (u v : vec) : vec := map2 Qminus u v.
Definition scale (c : Q) (v : vec) : vec := List.map (Qmult c) v.
Definition div (v : vec) (c : Q) : vec := List.map (fun a => a / c)%Q v.

(** The sum of the rows of a table of [d]-dimensional vectors. *)
Definition vsum (d : nat) (rows : list vec) : vec :=
  fold_right add (zeros d) rows.

(** The arithmetic mean of the rows, recomputed from scratch. *)
Definition mean (d : nat) (rows : list vec) : vec :=
  div (vsum d rows) (inject_Z (Z.of_nat (List.length rows))).

Definition coord (k : nat) (v : vec) : Q := nth k v 0%Q.

(** Equality of vectors up to the representation of their entries. *)
Definition veq (u v : vec) : Prop := Forall2 Qeq u v.

(** [rows[i] = g]; nothing is stored out of range. *)
Fixpoint store {A} (i : nat) (g : A) (rows : list A) : list A :=
  match rows, i with
  | [], _ => []
  | _ :: rest, O => g :: rest
  | r :: rest, S i' => r :: store i' g rest
  end.

End Vec.

(** ** The sampler *)

Module RandomSampler.
Import Native.
Local Open Scope nat_scope.

(** [l] with [x] put at position [k], at the end when [l] is shorter. *)
Fixpoint insert_at (k : nat) (x : nat) (l : list nat) : list nat :=
  match k, l with
  | O, _ => x :: l
  | S k', [] => [x]
  | S k', y :: l' => y :: insert_at k' x l'
  end.

(** Modelled from the spec: a random permutation of the indices below
    [n], from one draw per index.  The index [m] goes to one of the
    [m + 1] positions among the shuffled indices below it, the position
    being the draw reduced modulo [m + 1].  Every permutation comes from
    exactly one choice of positions, so draws that are uniform give a
    uniform permutation. *)
Fixpoint shuffle (draws : nat -> nat) (n : nat) : list nat :=
  match n with
  | O => []
  | S m => insert_at (draws m mod S m) m (shuffle draws m)
  end.

Section WithRandomness.
(** The raw draws of one run, in the order in which the sampler
    consumes them; any sequence of naturals can occur. *)
Variable omega : nat -> nat.

(** Modelled from the spec: the sampler is part of the native engine.
    In permutation mode it holds a shuffled sequence of the [n]
    indices and a cursor; in uniform mode nothing besides its place in
    the sequence of draws. *)
Record t : Type := mk {
  mode : RandType;
  n : nat;
  perm : list nat;
  cursor : nat;
  drawn : nat
}.

(** The permutation made from the draws that follow the first
    [from]. *)
Definition fresh (n from : nat) : list nat :=
  shuffle (fun i => omega (from + i)) n.

Definition new (mode : RandType) (n : nat) : t :=
  match mode with
  | Unif => mk Unif n [] 0 0
  | Perm => mk Perm n (fresh n 0) 0 n
  end.

Definition next_index (s : t) : nat * t :=
  match mode s with
  | Unif =>
      (omega (drawn s) mod n s,
       mk Unif (n s) (perm s) (cursor s) (S (drawn s)))
  | Perm =>
      let i := nth (cursor s) (perm s) 0 in
      let c := S (cursor s) in
      if n s <=? c then
        (i, mk Perm (n s) (fresh (n s) (drawn s)) 0 (drawn s + n s))
      else
        (i, mk Perm (n s) (perm s) c (drawn s))
  end.

(** The indices returned by [k] consecutive calls, and the sampler
    after them. *)
Fixpoint take (k : nat) (s : t) : list nat * t :=
  match k with
  | O => ([], s)
  | S k' =>
      let (i, s') := next_index s in
      let (l, s'') := take k' s' in
      (i :: l, s'')
  end.

(** The sampler after [k] calls. *)
Definition skip (k : nat) (s : t) : t := snd (take k s).

(** The indices of the calls number [from] to [from + k - 1],
    counted from zero. *)
Definition window (from k : nat) (s : t) : list nat :=
  fst (take k (skip from s)).

(** The sampler at the start of round [r]: the permutation of that
    round, the cursor at 0. *)
Definition round_start (n r : nat) : t :=
  mk Perm n (fresh n (r * n)) 0 (r * n + n).

End WithRandomness.

End RandomSampler.

(** ** The gradient memory *)

Module GradientMemory.
Import Vec.
Local Open Scope nat_scope.

(** Modelled from the spec: the gradient memory is part of the native
    engine.  It holds the last gradient of each of the [n] samples and
    the running average of these [n] rows. *)
Record t : Type := mk {
  n : nat;
  d : nat;
  table : list vec;
  avg : vec
}.

(** At initialization all entries are zero, and so is the average. *)
Definition init (n d : nat) : t :=
  mk n d (repeat (zeros d) n) (zeros d).

Definition get (i : nat) (m : t) : vec := nth i (table m) (zeros (d m)).

Definition average (m : t) : vec := avg m.

(** [average += (g_new - g_old) / n], then the row is replaced. *)
Definition update (i : nat) (new_gradient : vec) (m : t) : t :=
  let g_old := get i m in
  mk (n m) (d m)
     (store i new_gradient (table m))
     (add (avg m)
          (div (sub new_gradient g_old) (inject_Z (Z.of_nat (n m))))).

(** A sequence of calls [update(i, g)], first call first. *)
Definition updates (calls : list (nat * vec)) (m : t) : t :=
  fold_left (fun m c => update (fst c) (snd c) m) calls m.

(** A call is well formed when its index is one of the samples and its
    gradient has the dimension of the model. *)
Definition well_formed (n d : nat) (c : nat * vec) : Prop :=
  fst c < n /\ List.length (snd c) = d.

End GradientMemory.

(** ** The variance-reduction tracker *)

Module VarianceReductionTracker.
Import Vec.
Local Open Scope nat_scope.

Inductive Strategy : Type := Last | Avg | Rand.

(** Modelled from the spec: the tracker is part of the native engine.
    It holds the reference point of the running epoch and the iterates
    visited so far in it, oldest first; a step only notifies it. *)
Record t : Type := mk {
  strategy : Strategy;
  reference : vec;
  visited : list vec
}.

(** The reference point of the first epoch is the initial iterate. *)
Definition new (s : Strategy) (x0 : vec) : t := mk s x0 [].

Definition on_step (iterate : vec) (tr : t) : t :=
  mk (strategy tr) (reference tr) (visited tr ++ [iterate]).

End VarianceReductionTracker.

(** ** The step of the engine *)

Module SAGAEngine.
Import Vec Native.
Local Open Scope nat_scope.

(** The model: a generalized linear gradient provider. *)
Record Model : Type := mkModel {
  n_samples : nat;
  n_features : nat;
  grad_i : vec -> nat -> vec;
  loss_i : vec -> nat -> Q
}.

(** The proximal operator. *)
Record Prox : Type := mkProx {
  call : vec -> Q -> vec
}.

Section WithCollaborators.
Variable omega : nat -> nat.
Variable model : Model.
Variable prox : Prox.

(** Modelled from the spec: the engine is native code.  Its state is
    the configuration the wrapper has passed, the iterate, the gradient
    memory, the sampler, the tracker and the number of steps done. *)
Record t : Type := mk {
  cfg : _SAGA;
  x : vec;
  memory : GradientMemory.t;
  sampler : RandomSampler.t;
  tracker : VarianceReductionTracker.t;
  steps : nat
}.

Definition init (cfg : _SAGA) (s : VarianceReductionTracker.Strategy)
    (x0 : vec) : t :=
  mk cfg x0
     (GradientMemory.init (n_samples model) (n_features model))
     (RandomSampler.new omega (n_rand_type cfg) (n_samples model))
     (VarianceReductionTracker.new s x0)
     0.

(** The corrected direction for sample [i] with fresh gradient
    [g_i]. *)
Definition direction (g_i : vec) (i : nat) (m : GradientMemory.t)
  : vec :=
  add (sub g_i (GradientMemory.get i m)) (GradientMemory.average m).

(** One step, in the order of the per-step algorithm. *)
Definition step (e : t) : t :=
  let (i, smp) := RandomSampler.next_index omega (sampler e) in
  let eta := n_step (cfg e) in
  let g_i := grad_i model (x e) i in
  let d := direction g_i i (memory e) in
  let x_unprox := sub (x e) (scale eta d) in
  let x_new := call prox x_unprox eta in
  let mem := GradientMemory.update i g_i (memory e) in
  let tr := VarianceReductionTracker.on_step x_new (tracker e) in
  mk (cfg e) x_new mem smp tr (S (steps e)).

End WithCollaborators.

End SAGAEngine.

(** ** Vocabulary of the statements *)

Module Claims.
Import Py Native.
Local Open Scope string_scope.

(** The allowed values of [variance_reduction]. *)
Definition allowed : list string := ["last"; "avg"; "rand"].

(** The message of the error for a value outside the allowed set. *)
Definition rejection_message (val : string) : string :=
  "variance_reduction should be one of " ++ dquote ++ "last, avg, rand"
    ++ dquote ++ ", got " ++ dquote ++ val ++ dquote ++ ".".

(** The message of the error for a model of the wrong kind. *)
Definition incompatible_message : string :=
  "SAGA accepts only childs of `ModelGeneralizedLinear`".

(** What the wrapper hands to the native solver for a step. *)
Definition step_passed (o : option Q) : Q :=
  match o with None => 0%Q | Some q => q end.

(** The three native constants differ from one another. *)
Definition distinct (E : VarianceReductionMethod) : Prop :=
  NoDup [ VarianceReductionMethod_Last E;
          VarianceReductionMethod_Average E;
          VarianceReductionMethod_Random E ].

(** The call of the base class made by [SAGA.__init__]. *)
Definition base_of (a : SAGA.InitArgs) : PyExc + Base.SolverFirstOrderSto :=
  Base.__init__ (SAGA.a_step a) (SAGA.a_epoch_size a) (SAGA.a_rand_type a)
    (SAGA.a_tol a) (SAGA.a_max_iter a) (SAGA.a_verbose a)
    (SAGA.a_print_every a) (SAGA.a_record_every a) (SAGA.a_seed a).

(** The native solver a construction builds before the setter runs. *)
Definition native_of (E : VarianceReductionMethod)
    (b : Base.SolverFirstOrderSto) : _SAGA :=
  Native.new E
    (match Base.epoch_size b with None => 0%Z | Some e => e end)
    (Base.tol b) (Base._rand_type b)
    (match Base.step b with None => 0%Q | Some q => q end)
    (Base.seed b).

(** [set_model] raises an exception of the class named [cls]. *)
Definition set_model_raises (cls : string) (m : PyObject) (self : SAGA.t)
  : Prop :=
  exists msg, fst (SAGA.set_model m self) = inl (mkExc cls msg).

(** The shape of a memory of [n] rows of dimension [d], and the
    average stated coordinate by coordinate. *)
Record Inv (n d : nat) (m : GradientMemory.t) : Prop := mkInv {
  inv_n : GradientMemory.n m = n;
  inv_d : GradientMemory.d m = d;
  inv_rows : List.length (GradientMemory.table m) = n;
  inv_dims : Forall (fun r => List.length r = d) (GradientMemory.table m);
  inv_avg_dim : List.length (GradientMemory.avg m) = d;
  inv_avg : forall k,
      Vec.coord k (GradientMemory.avg m)
      == fold_right Qplus 0
           (List.map (Vec.coord k) (GradientMemory.table m))
         / inject_Z (Z.of_nat n)
}.

(** Arguments that the base class and the setter accept. *)
Definition valid_config (a : SAGA.InitArgs) : Prop :=
  Base.rand_type_of_string (SAGA.a_rand_type a) <> None
  /\ (0 <= SAGA.a_tol a)%Q
  /\ (0 <= SAGA.a_max_iter a)%Z
  /\ In (SAGA.a_variance_reduction a) allowed.

(** A least-squares model on two samples of one feature, and the
    proximal operator of the null regularizer, for examples. *)
Definition toy_model : SAGAEngine.Model :=
  SAGAEngine.mkModel 2 1
    (fun w i => [Vec.coord 0 w - inject_Z (Z.of_nat i)])
    (fun w i => (Vec.coord 0 w - inject_Z (Z.of_nat i))
                * (Vec.coord 0 w - inject_Z (Z.of_nat i)) / 2).

Definition toy_prox : SAGAEngine.Prox :=
  SAGAEngine.mkProx (fun w _ => w).

Definition toy_native : _SAGA :=
  Native.mk_SAGA 0%Z 0 Perm (1 # 4) 42%Z 1%Z.

(** Draws for which the first two shuffles of two indices come out as
    0, 1 and then 1, 0. *)
Definition straddling_draws (i : nat) : nat :=
  if (i =? 1)%nat then 1%nat else 0%nat.


(** A freshly built instance, for examples. *)
Definition blank : SAGA.t :=
  SAGA.mkSAGA
    (Base.mkBase None None Unif 0%Q 100%Z true 10%Z 1%Z (-1)%Z None)
    (Some (Native.new SAGA.tick_enum 0%Z 0%Q Unif 0%Q (-1)%Z)).

Definition bogus_args : SAGA.InitArgs :=
  SAGA.mkArgs None None "unif" 0%Q 100%Z true 10%Z 1%Z (-1)%Z "bogus".

(** An object that is a model, but not a generalized linear one. *)
Definition some_other_model : PyObject :=
  mkObj ["ModelHawkes"; "Model"; "object"].

Definition some_glm : PyObject :=
  mkObj ["ModelLogReg"; "ModelGeneralizedLinear"; "Model"; "object"].

End Claims.

Unset Implicit Arguments.

(** * Properties *)

(** ** Strings and dictionaries *)

Section PyFacts.
Import Py.
Local Open Scope string_scope.

Lemma append_assoc_string (a b c : string) :
  (a ++ b) ++ c = a ++ (b ++ c).
Proof.
  induction a as [|ch a IH]; simpl; [reflexivity | now rewrite IH].
Qed.

Lemma Substring_refl_mid (pre s post : string) :
  Substring s (pre ++ s ++ post).
Proof. now exists pre, post. Qed.

Lemma Substring_trans (s t u : string) :
  Substring s t -> Substring t u -> Substring s u.
Proof.
  intros (p1 & q1 & ->) (p2 & q2 & ->).
  exists (p2 ++ p1), (q1 ++ q2).
  now rewrite !append_assoc_string.
Qed.

Lemma bind_inl {S A B} (m : M S A) (k : A -> M S B) s e s' :
  m s = (inl e, s') -> bind m k s = (inl e, s').
Proof. unfold bind; now intros ->. Qed.

Lemma bind_inr {S A B} (m : M S A) (k : A -> M S B) s a s' :
  m s = (inr a, s') -> bind m k s = k a s'.
Proof. unfold bind; now intros ->. Qed.

End PyFacts.

(** ** The property [variance_reduction] and the constructor *)

Section Wrapper.
Import Py Native SAGA Claims.
Local Open Scope string_scope.
Variable E : VarianceReductionMethod.

Lemma contains_mapper (s : string) :
  contains (variance_reduction_methods_mapper E) s = true <-> In s allowed.
Proof.
  unfold contains, variance_reduction_methods_mapper, allowed.
  cbn [lookup In].
  destruct (String.eqb_spec "last" s) as [<-|H1]; [intuition|].
  destruct (String.eqb_spec "avg" s) as [<-|H2]; [intuition|].
  destruct (String.eqb_spec "rand" s) as [<-|H3]; [intuition|].
  split; [intros C; discriminate C|].
  intros [?|[?|[?|[]]]]; congruence.
Qed.

Lemma contains_mapper_false (s : string) :
  ~ In s allowed ->
  contains (variance_reduction_methods_mapper E) s = false.
Proof.
  intros H.
  destruct (contains (variance_reduction_methods_mapper E) s) eqn:C;
    [|reflexivity].
  now apply contains_mapper in C.
Qed.

Lemma rejection_names_allowed (val k : string) :
  In k allowed -> Substring k (rejection_message val).
Proof.
  assert (J : Substring "last, avg, rand" (rejection_message val)).
  { unfold rejection_message.
    exists ("variance_reduction should be one of " ++ dquote),
           (dquote ++ ", got " ++ dquote ++ val ++ dquote ++ ".").
    now rewrite !append_assoc_string. }
  intros [<-|[<-|[<-|[]]]]; (eapply Substring_trans; [|exact J]).
  - now exists "", ", avg, rand".
  - now exists "last, ", ", rand".
  - now exists "last, avg, ", "".
Qed.

(** The setter raises before it touches [self]. *)
Lemma setter_rejects (s : string) (self : SAGA.t) :
  ~ In s allowed ->
  set_variance_reduction E s self
  = (inl (ValueError (rejection_message s)), self).
Proof.
  intros H. unfold set_variance_reduction.
  rewrite (contains_mapper_false s H). reflexivity.
Qed.

(** The setter stores the native constant of an allowed name. *)
Lemma setter_accepts (s : string) (self : SAGA.t) (solver : _SAGA) (v : Z) :
  lookup (variance_reduction_methods_mapper E) s = Some v ->
  _solver self = Some solver ->
  set_variance_reduction E s self
  = (inr tt,
     mkSAGA (super self) (Some (Native.set_variance_reduction v solver))).
Proof.
  intros L S. unfold set_variance_reduction, contains.
  rewrite L; simpl.
  unfold bind, the_solver, getitem, lift, get, put.
  now rewrite S, L.
Qed.

Lemma lookup_allowed (s : string) :
  In s allowed ->
  exists v, lookup (variance_reduction_methods_mapper E) s = Some v
            /\ In (s, v) (variance_reduction_methods_mapper E).
Proof.
  intros [<-|[<-|[<-|[]]]]; eexists; (split; [reflexivity|]); simpl; tauto.
Qed.

End Wrapper.

Section Construction.
Import Py Native SAGA Claims.
Local Open Scope string_scope.
Variable E : VarianceReductionMethod.

Lemma base_of_inr (a : InitArgs) (b : Base.SolverFirstOrderSto) :
  base_of a = inr b ->
  Base.step b = a_step a /\ Base.epoch_size b = a_epoch_size a
  /\ Base.tol b = a_tol a /\ Base.max_iter b = a_max_iter a
  /\ Base.seed b = a_seed a /\ Base.model b = None
  /\ Base.rand_type_of_string (a_rand_type a) = Some (Base._rand_type b).
Proof.
  unfold base_of, Base.__init__.
  destruct (Base.rand_type_of_string (a_rand_type a)); [|discriminate].
  destruct (negb (Qle_bool 0 (a_tol a))); [discriminate|].
  destruct (a_max_iter a <? 0)%Z; [discriminate|].
  intros [= <-]; simpl; tauto.
Qed.

Lemma valid_base (a : InitArgs) :
  valid_config a -> exists b, base_of a = inr b.
Proof.
  intros (R & T & M & _). unfold base_of, Base.__init__.
  destruct (Base.rand_type_of_string (a_rand_type a)) as [rt|];
    [|congruence].
  apply Qle_bool_iff in T. rewrite T. simpl.
  replace (a_max_iter a <? 0)%Z with false
    by (symmetry; apply Z.ltb_ge; exact M).
  eexists; reflexivity.
Qed.

Lemma init_unfold (a : InitArgs) :
  SAGA.__init__ E a
  = match base_of a with
    | inl e => inl e
    | inr b =>
        inr (set_variance_reduction E (a_variance_reduction a)
               (mkSAGA b (Some (native_of E b))))
    end.
Proof.
  unfold SAGA.__init__, base_of.
  destruct (Base.__init__ _ _ _ _ _ _ _ _ _); reflexivity.
Qed.

(** A construction with valid arguments returns the instance whose
    native solver holds the constant of the chosen method. *)
Lemma new_accepts (a : InitArgs) (b : Base.SolverFirstOrderSto) :
  base_of a = inr b ->
  In (a_variance_reduction a) allowed ->
  exists v,
    lookup (variance_reduction_methods_mapper E) (a_variance_reduction a)
    = Some v
    /\ SAGA.new E a
       = inr (mkSAGA b
                (Some (Native.set_variance_reduction v (native_of E b)))).
Proof.
  intros B A. destruct (lookup_allowed E _ A) as (v & L & _).
  exists v; split; [exact L|].
  unfold SAGA.new. rewrite init_unfold, B.
  now rewrite (setter_accepts E _ (mkSAGA b (Some (native_of E b))) _ v L
                 eq_refl).
Qed.

(** A construction with a value outside the allowed set never returns
    an instance. *)
Lemma new_rejects (a : InitArgs) :
  ~ In (a_variance_reduction a) allowed ->
  SAGA.new E a
  = match base_of a with
    | inl e => inl e
    | inr _ => inl (ValueError (rejection_message (a_variance_reduction a)))
    end.
Proof.
  intros A. unfold SAGA.new. rewrite init_unfold.
  destruct (base_of a) as [e|b]; [reflexivity|].
  now rewrite setter_rejects.
Qed.

End Construction.

Section WrapperClaims.
Import Py Native SAGA Claims.
Local Open Scope string_scope.

(** Constructing with every argument left unset yields an instance
    whose property reads 'last'. *)
Example default_reads_last :
  match SAGA.new tick_enum default_args with
  | inr self => fst (variance_reduction tick_enum self) = inr (Some "last")
  | inl _ => False
  end.
Proof. reflexivity. Qed.

(** The message for the value 'bogus', character by character. *)
Example bogus_message :
  rejection_message "bogus"
  = "variance_reduction should be one of " ++ dquote ++ "last, avg, rand"
      ++ dquote ++ ", got " ++ dquote ++ "bogus" ++ dquote ++ ".".
Proof. reflexivity. Qed.

(** [__init__] itself leaves [self] with its native solver assigned when
    the setter raises; only the constructor expression drops it. *)
Example init_leaves_partial_self :
  match SAGA.__init__ tick_enum bogus_args with
  | inr (inl e, self) =>
      exc_type e = "ValueError" /\ _solver self <> None
  | _ => False
  end.
Proof. simpl. split; [reflexivity | discriminate]. Qed.

(** A generalized linear model is attached. *)
Example glm_is_attached :
  SAGA.set_model some_glm blank
  = (inr (mkSAGA (Base.set_model some_glm (super blank)) (_solver blank)),
     mkSAGA (Base.set_model some_glm (super blank)) (_solver blank)).
Proof. reflexivity. Qed.

(** C1.  For every string [s] outside 'last', 'avg', 'rand': assigning
    [s] to the property [variance_reduction] of any instance raises a
    [ValueError] whose message names each allowed value, and leaves
    the instance as it was; constructing with [variance_reduction = s]
    never returns an instance, and raises that same error as soon as
    the base class has accepted the other arguments. *)
Theorem C1_invalid_variance_reduction_rejected
    (E : VarianceReductionMethod) (s : string) :
  ~ In s allowed ->
  (forall self : SAGA.t,
      set_variance_reduction E s self
      = (inl (ValueError (rejection_message s)), self))
  /\ (forall a : InitArgs,
         a_variance_reduction a = s ->
         (exists e, SAGA.new E a = inl e)
         /\ (forall b, base_of a = inr b ->
                SAGA.new E a = inl (ValueError (rejection_message s))))
  /\ (forall k, In k allowed -> Substring k (rejection_message s)).
Proof.
  intros H. split; [|split].
  - intros self. now apply setter_rejects.
  - intros a <-. rewrite (new_rejects E a H).
    split.
    + destruct (base_of a) as [e|b]; eexists; reflexivity.
    + now intros b ->.
  - intros k. apply rejection_names_allowed.
Qed.

Lemma C1_witness :
  ~ In "bogus" allowed
  /\ set_variance_reduction tick_enum "bogus" blank
     = (inl (ValueError (rejection_message "bogus")), blank)
  /\ SAGA.new tick_enum bogus_args
     = inl (ValueError (rejection_message "bogus")).
Proof.
  assert (H : ~ In "bogus" allowed).
  { simpl. intros [A|[A|[A|[]]]]; discriminate A. }
  destruct (C1_invalid_variance_reduction_rejected tick_enum "bogus" H)
    as (S & N & _).
  split; [exact H|]. split; [apply S|].
  destruct (N bogus_args eq_refl) as (_ & B).
  exact (B _ eq_refl).
Defined.

(** C2, as the code has it.  For every object [m] that is not an
    instance of [ModelGeneralizedLinear], [set_model(m)] raises a
    [ValueError] and leaves the solver as it was; for every [m] that is
    one, [set_model(m)] returns the solver with [m] attached and
    nothing else changed. *)
Theorem C2_set_model_checks_capability
    (m : PyObject) (self : SAGA.t) :
  match SAGA.set_model m self with
  | (inl e, after) =>
      isinstance m "ModelGeneralizedLinear" = false
      /\ e = ValueError incompatible_message
      /\ after = self
  | (inr returned, after) =>
      isinstance m "ModelGeneralizedLinear" = true
      /\ returned = after
      /\ Base.model (super after) = Some m
      /\ _solver after = _solver self
      /\ Base.set_model m (super self) = super after
  end.
Proof.
  unfold SAGA.set_model.
  destruct (isinstance m "ModelGeneralizedLinear"); simpl; auto.
Qed.

(** C2, as stated, fails: for a model of another kind the exception
    raised is not of a class [IncompatibleModelError]. *)
Lemma C2_counterexample :
  isinstance some_other_model "ModelGeneralizedLinear" = false
  /\ ~ set_model_raises "IncompatibleModelError" some_other_model blank.
Proof.
  split; [reflexivity|].
  intros (msg & H). simpl in H. discriminate H.
Qed.

End WrapperClaims.

Section RoundTrip.
Import Py Native SAGA Claims.
Local Open Scope string_scope.
Variable E : VarianceReductionMethod.

Lemma distinct_neq :
  distinct E ->
  VarianceReductionMethod_Last E <> VarianceReductionMethod_Average E
  /\ VarianceReductionMethod_Last E <> VarianceReductionMethod_Random E
  /\ VarianceReductionMethod_Average E <> VarianceReductionMethod_Random E.
Proof.
  unfold distinct. intros D.
  inversion D as [|? ? N1 D1]; subst.
  inversion D1 as [|? ? N2 _]; subst.
  simpl in N1, N2. intuition.
Qed.

(** Reading the property of an instance whose native solver is [s]. *)
Lemma getter_unfold (self : SAGA.t) (s : _SAGA) :
  _solver self = Some s ->
  variance_reduction E self
  = (inr (option_map fst
            (find (fun kv => (snd kv =? get_variance_reduction s)%Z)
                  (variance_reduction_methods_mapper E))),
     self).
Proof.
  intros S. unfold variance_reduction, bind, the_solver.
  now rewrite S.
Qed.

(** With distinct constants the first key that matches the constant of
    an allowed name is that name. *)
Lemma reverse_lookup (s : string) (v : Z) :
  distinct E ->
  In s allowed ->
  lookup (variance_reduction_methods_mapper E) s = Some v ->
  option_map fst
    (find (fun kv => (snd kv =? v)%Z) (variance_reduction_methods_mapper E))
  = Some s.
Proof.
  intros D A L. destruct (distinct_neq D) as (N1 & N2 & N3).
  unfold variance_reduction_methods_mapper in *.
  destruct A as [<-|[<-|[<-|[]]]]; cbn in L; injection L as <-;
    cbn [find snd];
    repeat match goal with
      | |- context [(?a =? ?a)%Z] => rewrite (Z.eqb_refl a)
      | |- context [(?a =? ?b)%Z] =>
          replace (a =? b)%Z with false
            by (symmetry; apply Z.eqb_neq; congruence)
      end; reflexivity.
Qed.

(** C10.  With the three native constants distinct, for every [s]
    among 'last', 'avg', 'rand' and every instance that has its native
    solver, assigning [s] to [variance_reduction] succeeds and reading
    the property afterwards returns [s]; and reading the property of
    any such instance returns [None] exactly when the method the native
    solver reports is none of the mapper's values. *)
Theorem C10_variance_reduction_round_trip
    (s : string) (self : SAGA.t) (solver : _SAGA) :
  distinct E ->
  In s allowed ->
  _solver self = Some solver ->
  (exists self',
      set_variance_reduction E s self = (inr tt, self')
      /\ variance_reduction E self' = (inr (Some s), self'))
  /\ (variance_reduction E self = (inr None, self)
      <-> ~ In (get_variance_reduction solver)
               (List.map snd (variance_reduction_methods_mapper E))).
Proof.
  intros D A S. split.
  - destruct (lookup_allowed E s A) as (v & L & _).
    eexists. split; [exact (setter_accepts E s self solver v L S)|].
    rewrite (getter_unfold
               (mkSAGA (super self)
                       (Some (Native.set_variance_reduction v solver)))
               _ eq_refl).
    unfold get_variance_reduction, Native.set_variance_reduction.
    cbn [n_variance_reduction].
    now rewrite (reverse_lookup s v D A L).
  - rewrite (getter_unfold self solver S).
    remember (find (fun kv => (snd kv =? get_variance_reduction solver)%Z)
                (variance_reduction_methods_mapper E)) as r eqn:F.
    symmetry in F. split.
    + intros H I. destruct r as [kv|]; [discriminate H|].
      apply in_map_iff in I. destruct I as (kv & Hv & I).
      apply (find_none _ _ F) in I. cbv beta in I.
      apply Z.eqb_neq in I. congruence.
    + intros N. destruct r as [kv|]; [|reflexivity].
      exfalso. apply N. apply find_some in F. destruct F as (I & Hv).
      apply Z.eqb_eq in Hv. rewrite <- Hv.
      apply in_map. exact I.
Qed.

End RoundTrip.

Lemma C10_witness :
  Claims.distinct SAGA.tick_enum
  /\ In "avg"%string Claims.allowed
  /\ (exists self',
        SAGA.set_variance_reduction SAGA.tick_enum "avg" Claims.blank
        = (inr tt, self')
        /\ SAGA.variance_reduction SAGA.tick_enum self'
           = (inr (Some "avg"%string), self')).
Proof.
  assert (D : Claims.distinct SAGA.tick_enum).
  { unfold Claims.distinct; simpl.
    repeat constructor; simpl; intuition discriminate. }
  assert (A : In "avg"%string Claims.allowed) by (simpl; tauto).
  split; [exact D|]. split; [exact A|].
  exact (proj1 (C10_variance_reduction_round_trip SAGA.tick_enum "avg"
                  Claims.blank _ D A eq_refl)).
Defined.

(** ** Vectors *)

Section VecFacts.
Import Vec.
Local Open Scope Q_scope.

Lemma map2_length (f : Q -> Q -> Q) (u v : vec) :
  List.length u = List.length v ->
  List.length (map2 f u v) = List.length u.
Proof.
  revert v; induction u as [|a u IH]; intros [|b v]; simpl;
    try discriminate; auto.
Qed.

Lemma coord_map2 (f : Q -> Q -> Q) (k : nat) (u v : vec) :
  List.length u = List.length v ->
  f 0 0 == 0 ->
  coord k (map2 f u v) == f (coord k u) (coord k v).
Proof.
  intros L Z. unfold coord.
  revert k v L; induction u as [|a u IH]; intros k [|b v] L;
    try discriminate L.
  - destruct k; simpl; now rewrite Z.
  - destruct k; simpl; [reflexivity|]. apply IH. now injection L.
Qed.

Lemma coord_add (k : nat) (u v : vec) :
  List.length u = List.length v ->
  coord k (add u v) == coord k u + coord k v.
Proof. intros L. apply coord_map2; [exact L | reflexivity]. Qed.

Lemma coord_sub (k : nat) (u v : vec) :
  List.length u = List.length v ->
  coord k (sub u v) == coord k u - coord k v.
Proof. intros L. apply coord_map2; [exact L | reflexivity]. Qed.

Lemma coord_div (k : nat) (v : vec) (c : Q) :
  coord k (div v c) == coord k v / c.
Proof.
  unfold coord, div. revert k; induction v as [|a v IH]; intros [|k];
    simpl; try reflexivity; apply IH.
Qed.

Lemma div_length (v : vec) (c : Q) : List.length (div v c) = List.length v.
Proof. apply length_map. Qed.

Lemma zeros_length (d : nat) : List.length (zeros d) = d.
Proof. apply repeat_length. Qed.

Lemma coord_zeros (k d : nat) : coord k (zeros d) = 0.
Proof.
  unfold coord, zeros. revert k; induction d as [|d IH]; intros [|k];
    simpl; auto.
Qed.

Lemma veq_of_coords (u v : vec) :
  List.length u = List.length v ->
  (forall k, coord k u == coord k v) ->
  veq u v.
Proof.
  unfold veq, coord.
  revert v; induction u as [|a u IH]; intros [|b v] L H;
    try discriminate L; constructor.
  - exact (H O).
  - apply IH; [now injection L|]. intros k. exact (H (S k)).
Qed.

Lemma vsum_length (d : nat) (rows : list vec) :
  Forall (fun r => List.length r = d) rows ->
  List.length (vsum d rows) = d.
Proof.
  induction 1 as [|r rows Hr _ IH]; simpl; [apply zeros_length|].
  unfold add. rewrite map2_length; congruence.
Qed.

(** A coordinate of the sum of the rows is the sum of that coordinate
    over the rows. *)
Lemma coord_vsum (k d : nat) (rows : list vec) :
  Forall (fun r => List.length r = d) rows ->
  coord k (vsum d rows)
  == fold_right Qplus 0 (List.map (coord k) rows).
Proof.
  induction 1 as [|r rows Hr Hrows IH]; simpl.
  - now rewrite coord_zeros.
  - rewrite coord_add, IH; [reflexivity|].
    rewrite vsum_length; auto.
Qed.

Lemma store_length {A} (i : nat) (g : A) (rows : list A) :
  List.length (store i g rows) = List.length rows.
Proof.
  revert i; induction rows as [|r rows IH]; intros [|i]; simpl; auto.
Qed.

Lemma store_Forall {A} (P : A -> Prop) (i : nat) (g : A) (rows : list A) :
  P g -> Forall P rows -> Forall P (store i g rows).
Proof.
  intros Pg H. revert i; induction H as [|r rows Hr Hrows IH]; intros [|i];
    simpl; constructor; auto.
Qed.

Lemma nth_store_same {A} (i : nat) (g dflt : A) (rows : list A) :
  (i < List.length rows)%nat -> nth i (store i g rows) dflt = g.
Proof.
  revert i; induction rows as [|r rows IH]; intros [|i] L; simpl in *;
    try lia; auto. apply IH. lia.
Qed.

(** Replacing one row moves the sum of any coordinate by the
    difference of the two rows there. *)
Lemma sum_store {A} (f : A -> Q) (i : nat) (g dflt : A) (rows : list A) :
  (i < List.length rows)%nat ->
  fold_right Qplus 0 (List.map f (store i g rows))
  == fold_right Qplus 0 (List.map f rows) + (f g - f (nth i rows dflt)).
Proof.
  revert i; induction rows as [|r rows IH]; intros [|i] L; simpl in *;
    try lia.
  - ring.
  - rewrite IH by lia. ring.
Qed.

Lemma sum_repeat_zero {A} (f : A -> Q) (a : A) (n : nat) :
  f a == 0 ->
  fold_right Qplus 0 (List.map f (repeat a n)) == 0.
Proof.
  intros Z. induction n as [|n IH]; simpl; [reflexivity|].
  rewrite IH, Z. ring.
Qed.

Lemma inject_nat_nonzero (n : nat) :
  (0 < n)%nat -> ~ inject_Z (Z.of_nat n) == 0.
Proof.
  intros L H. unfold Qeq in H. simpl in H. lia.
Qed.

End VecFacts.

(** ** The average invariant of the gradient memory *)

Section AverageInvariant.
Import Vec GradientMemory Claims.
Local Open Scope Q_scope.
Set Implicit Arguments.

Lemma Inv_init (n d : nat) : Inv n d (init n d).
Proof.
  constructor; simpl; auto using repeat_length, zeros_length.
  - apply Forall_forall. intros r Hr.
    apply repeat_spec in Hr; subst. apply zeros_length.
  - intros k. rewrite coord_zeros.
    rewrite sum_repeat_zero by (now rewrite coord_zeros).
    unfold Qdiv. now rewrite Qmult_0_l.
Qed.

Lemma get_length (n d i : nat) (m : GradientMemory.t) :
  Inv n d m -> List.length (get i m) = d.
Proof.
  intros I. unfold get. rewrite (inv_d I).
  destruct (Nat.lt_ge_cases i (List.length (table m))) as [L|L].
  - pose proof (inv_dims I) as F. rewrite Forall_forall in F.
    apply F. now apply nth_In.
  - rewrite nth_overflow by exact L. apply zeros_length.
Qed.

Lemma Inv_update (n d i : nat) (g : vec) (m : GradientMemory.t) :
  Inv n d m -> well_formed n d (i, g) -> Inv n d (update i g m).
Proof.
  intros I [Hi Hg]; simpl in Hi, Hg.
  pose proof (get_length i I) as Hold.
  assert (Hsub : List.length (sub g (get i m)) = d).
  { unfold sub. rewrite map2_length; congruence. }
  constructor; simpl.
  - exact (inv_n I).
  - exact (inv_d I).
  - rewrite store_length. exact (inv_rows I).
  - apply store_Forall; [exact Hg | exact (inv_dims I)].
  - unfold add. rewrite map2_length; [exact (inv_avg_dim I)|].
    rewrite div_length, Hsub. exact (inv_avg_dim I).
  - intros k.
    rewrite coord_add
      by (rewrite div_length, Hsub; exact (inv_avg_dim I)).
    rewrite coord_div, coord_sub by congruence.
    rewrite (inv_avg I k), (inv_n I).
    rewrite (sum_store (coord k) i g (zeros (GradientMemory.d m)))
      by (rewrite (inv_rows I); exact Hi).
    unfold get. field. apply inject_nat_nonzero. lia.
Qed.

Lemma Inv_updates (n d : nat) (calls : list (nat * vec))
    (m : GradientMemory.t) :
  Inv n d m -> Forall (well_formed n d) calls -> Inv n d (updates calls m).
Proof.
  intros I F. revert m I.
  induction F as [|[i g] calls Hc _ IH]; intros m I; simpl; [exact I|].
  apply IH. now apply Inv_update.
Qed.

Lemma Inv_mean (n d : nat) (m : GradientMemory.t) :
  Inv n d m -> veq (average m) (mean d (table m)).
Proof.
  intros I. apply veq_of_coords.
  - unfold average, mean. rewrite div_length, (inv_avg_dim I).
    symmetry. apply vsum_length. exact (inv_dims I).
  - intros k. unfold average, mean.
    rewrite coord_div, (coord_vsum k _ _ (inv_dims I)), (inv_rows I).
    apply (inv_avg I).
Qed.

Unset Implicit Arguments.


End AverageInvariant.


(** ** The shuffle *)

Section ShuffleFacts.
Import RandomSampler.
Local Open Scope nat_scope.

Lemma insert_at_perm (k x : nat) (l : list nat) :
  Permutation (insert_at k x l) (x :: l).
Proof.
  revert k; induction l as [|y l IH]; intros [|k]; simpl; auto.
  rewrite IH. apply perm_swap.
Qed.

Lemma insert_at_length (k x : nat) (l : list nat) :
  List.length (insert_at k x l) = S (List.length l).
Proof. apply (Permutation_length (insert_at_perm k x l)). Qed.

(** Whatever the draws, a shuffle is a permutation of the indices. *)
Lemma shuffle_perm (draws : nat -> nat) (n : nat) :
  Permutation (shuffle draws n) (seq 0 n).
Proof.
  induction n as [|m IH]; [constructor|]. cbn [shuffle].
  rewrite insert_at_perm, IH, seq_S. cbn [Nat.add].
  apply Permutation_cons_append.
Qed.

Lemma shuffle_length (draws : nat -> nat) (n : nat) :
  List.length (shuffle draws n) = n.
Proof.
  rewrite (Permutation_length (shuffle_perm draws n)). apply length_seq.
Qed.

Lemma shuffle_ext (d1 d2 : nat -> nat) (n : nat) :
  (forall i, i < n -> d1 i mod S i = d2 i mod S i) ->
  shuffle d1 n = shuffle d2 n.
Proof.
  induction n as [|m IH]; intros H; [reflexivity|]. cbn [shuffle].
  rewrite IH by (intros i Hi; apply H; lia).
  now rewrite (H m) by lia.
Qed.

(** Where an element that is new to a list was put, and into which
    list, can be read off the result. *)
Lemma insert_at_inj (x : nat) (l l' : list nat) (k k' : nat) :
  ~ In x l -> ~ In x l' ->
  k <= List.length l -> k' <= List.length l' ->
  insert_at k x l = insert_at k' x l' ->
  k = k' /\ l = l'.
Proof.
  revert l' k k'; induction l as [|a l IH]; intros l' k k' N N' L L' H.
  - simpl in L. assert (k = 0) by lia. subst k. simpl in H.
    destruct k' as [|k']; simpl in H.
    + injection H as <-. auto.
    + destruct l' as [|b l']; [simpl in L'; lia|].
      injection H as -> _. exfalso. apply N'. now left.
  - destruct k as [|k]; destruct k' as [|k']; simpl in H.
    + injection H as <-. auto.
    + destruct l' as [|b l']; [simpl in L'; lia|].
      injection H as -> _. exfalso. apply N'. now left.
    + destruct l' as [|b l'].
      * injection H as -> _. exfalso. apply N. now left.
      * injection H as -> _. exfalso. apply N. now left.
    + destruct l' as [|b l']; [simpl in L'; lia|].
      injection H as <- H. simpl in L, L'.
      assert (Nl : ~ In x l) by (intros I; apply N; now right).
      assert (Nl' : ~ In x l') by (intros I; apply N'; now right).
      destruct (IH l' k k' Nl Nl') as (-> & ->); auto; lia.
Qed.

Lemma shuffle_fresh_index (draws : nat -> nat) (m : nat) :
  ~ In m (shuffle draws m).
Proof.
  intros I. apply (Permutation_in _ (shuffle_perm draws m)) in I.
  apply in_seq in I. lia.
Qed.

(** Two shuffles that agree come from the same positions. *)
Lemma shuffle_inj (d1 d2 : nat -> nat) (n : nat) :
  shuffle d1 n = shuffle d2 n ->
  forall i, i < n -> d1 i mod S i = d2 i mod S i.
Proof.
  induction n as [|m IH]; intros H i Hi; [lia|]. cbn [shuffle] in H.
  apply insert_at_inj in H; auto using shuffle_fresh_index.
  - destruct H as (K & S).
    destruct (Nat.eq_dec i m) as [->|Ne]; [exact K|].
    apply IH; [exact S | lia].
  - rewrite shuffle_length.
    pose proof (Nat.mod_upper_bound (d1 m) (S m)). lia.
  - rewrite shuffle_length.
    pose proof (Nat.mod_upper_bound (d2 m) (S m)). lia.
Qed.

Lemma insert_at_app (x : nat) (l1 l2 : list nat) :
  insert_at (List.length l1) x (l1 ++ l2) = l1 ++ x :: l2.
Proof.
  induction l1 as [|a l1 IH]; simpl; [now destruct l2|].
  now rewrite IH.
Qed.

(** Every permutation of the indices is the shuffle of some draws. *)
Lemma shuffle_onto (n : nat) (p : list nat) :
  Permutation p (seq 0 n) -> exists draws, shuffle draws n = p.
Proof.
  revert p; induction n as [|m IH]; intros p P.
  - exists (fun _ => 0). simpl. symmetry.
    apply Permutation_nil. now symmetry.
  - rewrite seq_S in P. cbn [Nat.add] in P.
    assert (I : In m p).
    { apply (Permutation_in _ (Permutation_sym P)).
      apply in_or_app. right. now left. }
    destruct (in_split _ _ I) as (l1 & l2 & ->).
    apply Permutation_app_inv in P. rewrite app_nil_r in P.
    destruct (IH _ P) as (draws' & D).
    pose proof (Permutation_length P) as L.
    rewrite length_app, length_seq in L.
    exists (fun i => if i =? m then List.length l1 else draws' i).
    cbn [shuffle]. rewrite Nat.eqb_refl.
    rewrite (shuffle_ext _ draws' m).
    + rewrite D, Nat.mod_small by lia. apply insert_at_app.
    + intros i Hi.
      now replace (i =? m) with false by (symmetry; apply Nat.eqb_neq; lia).
Qed.

End ShuffleFacts.

(** ** The sampler in permutation mode *)

Section Coverage.
Import Native RandomSampler.
Local Open Scope nat_scope.
Variable omega : nat -> nat.

Lemma skipn_nth_cons (c : nat) (p : list nat) :
  c < List.length p -> skipn c p = nth c p 0 :: skipn (S c) p.
Proof.
  revert c; induction p as [|a p IH]; intros [|c] L; simpl in *;
    try lia; auto. apply IH. lia.
Qed.

(** Calls that end exactly when the cursor reaches [n] return the rest
    of the sequence and leave a fresh one, the cursor at 0. *)
Lemma take_to_boundary (j n c : nat) (p : list nat) (dr : nat) :
  c + S j = n -> List.length p = n ->
  take omega (S j) (mk Perm n p c dr)
  = (firstn (S j) (skipn c p), mk Perm n (fresh omega n dr) 0 (dr + n)).
Proof.
  revert c; induction j as [|j IH]; intros c Hc Hp.
  - cbn [take next_index mode cursor RandomSampler.n perm drawn].
    replace (n <=? S c) with true by (symmetry; apply Nat.leb_le; lia).
    rewrite (skipn_nth_cons c p) by lia. reflexivity.
  - cbn [take]. cbn [next_index mode cursor RandomSampler.n perm drawn].
    replace (n <=? S c) with false by (symmetry; apply Nat.leb_gt; lia).
    cbn [take] in IH. rewrite (IH (S c)) by lia.
    rewrite (skipn_nth_cons c p) by lia. reflexivity.
Qed.

(** From the start of a round, [n] calls return the whole permutation
    of the round and leave the sampler at the start of the next. *)
Lemma take_round (n r : nat) :
  0 < n ->
  take omega n (round_start omega n r)
  = (fresh omega n (r * n), round_start omega n (S r)).
Proof.
  intros Hn. destruct n as [|j]; [lia|].
  unfold round_start at 1.
  rewrite take_to_boundary by (auto; apply shuffle_length).
  simpl skipn.
  rewrite <- (shuffle_length (fun i => omega (r * S j + i)) (S j)) at 1.
  unfold fresh at 1. rewrite firstn_all.
  unfold round_start.
  replace (S r * S j) with (r * S j + S j) by lia. reflexivity.
Qed.

Lemma take_add (a b : nat) (s : RandomSampler.t) :
  take omega (a + b) s
  = (fst (take omega a s) ++ fst (take omega b (snd (take omega a s))),
     snd (take omega b (snd (take omega a s)))).
Proof.
  revert s; induction a as [|a IH]; intros s; simpl.
  - now destruct (take omega b s).
  - destruct (next_index omega s) as [i s']. rewrite IH.
    destruct (take omega a s') as [l1 s1]; simpl.
    now destruct (take omega b s1).
Qed.

Lemma skip_add (a b : nat) (s : RandomSampler.t) :
  skip omega (a + b) s = skip omega b (skip omega a s).
Proof. unfold skip. now rewrite take_add. Qed.

(** After [k] whole rounds the sampler is at the start of round [k]. *)
Lemma skip_rounds (n k : nat) :
  0 < n ->
  skip omega (k * n) (RandomSampler.new omega Perm n)
  = round_start omega n k.
Proof.
  intros Hn. induction k as [|k IH].
  - reflexivity.
  - replace (S k * n) with (k * n + n) by lia.
    rewrite skip_add, IH. unfold skip.
    now rewrite take_round.
Qed.

(** The calls of round [k] return the permutation of round [k]. *)
Lemma window_round (n k : nat) :
  window omega (k * n) n (RandomSampler.new omega Perm n)
  = fresh omega n (k * n).
Proof.
  destruct n as [|j]; [now rewrite Nat.mul_0_r|].
  unfold window. rewrite skip_rounds by lia.
  now rewrite take_round by lia.
Qed.

End Coverage.

Section CoverageClaim.
Import Native RandomSampler Claims.
Local Open Scope nat_scope.



End CoverageClaim.

(** ** The step of the engine *)

Section StepFacts.
Import Vec GradientMemory Claims.
Local Open Scope Q_scope.

Lemma scale_length (c : Q) (v : vec) :
  List.length (scale c v) = List.length v.
Proof. apply length_map. Qed.

Lemma coord_scale (k : nat) (c : Q) (v : vec) :
  coord k (scale c v) == c * coord k v.
Proof.
  unfold coord, scale. revert k; induction v as [|a v IH]; intros [|k];
    simpl; try reflexivity; try apply IH; ring.
Qed.

Lemma nth_store_other {A} (i j : nat) (g dflt : A) (rows : list A) :
  j <> i -> nth j (store i g rows) dflt = nth j rows dflt.
Proof.
  revert i j; induction rows as [|r rows IH]; intros [|i] [|j] N; simpl;
    try reflexivity; try congruence.
  apply IH. congruence.
Qed.

(** What [update] stores is what [get] then returns. *)
Lemma get_update_same (n d i : nat) (g : vec) (m : GradientMemory.t) :
  Inv n d m -> (i < n)%nat -> get i (update i g m) = g.
Proof.
  intros I L. unfold get, update; simpl.
  apply nth_store_same. now rewrite (inv_rows I).
Qed.

Lemma get_update_other (i j : nat) (g : vec) (m : GradientMemory.t) :
  j <> i -> get j (update i g m) = get j m.
Proof.
  intros N. unfold get, update; simpl. now apply nth_store_other.
Qed.

(** The average after [update], coordinate by coordinate. *)
Lemma average_update (n d i k : nat) (g : vec) (m : GradientMemory.t) :
  Inv n d m -> List.length g = d ->
  coord k (average (update i g m))
  == coord k (average m)
     + (coord k g - coord k (get i m)) / inject_Z (Z.of_nat n).
Proof.
  intros I Hg.
  pose proof (get_length i I) as Hold.
  assert (Hsub : List.length (sub g (get i m)) = d).
  { unfold sub. rewrite map2_length; congruence. }
  unfold average, update; simpl.
  rewrite coord_add by (rewrite div_length, Hsub; exact (inv_avg_dim I)).
  rewrite coord_div, coord_sub by congruence.
  now rewrite (inv_n I).
Qed.

End StepFacts.

Section EngineClaims.
Import Py Vec Native SAGAEngine Claims.
Local Open Scope nat_scope.

(** The direction formed from the memory as it is before [update]
    differs from what the updated memory would give: on two samples of
    one feature, all rows zero, sample 0 and fresh gradient 1, the
    former is 1 and the latter 1/2. *)
Lemma direction_depends_on_order :
  let m := GradientMemory.init 2 1 in
  veq (direction [1%Q] 0 m) [1%Q]
  /\ veq (direction [1%Q] 0 (GradientMemory.update 0 [1%Q] m)) [(1 # 2)%Q]
  /\ ~ veq [1%Q] [(1 # 2)%Q].
Proof.
  split; [|split].
  - constructor; [vm_compute; reflexivity | constructor].
  - constructor; [vm_compute; reflexivity | constructor].
  - intros H. inversion H as [|? ? ? ? Q _]; subst.
    vm_compute in Q. discriminate Q.
Qed.

Lemma direction_length (n d i : nat) (g : vec) (m : GradientMemory.t) :
  Inv n d m -> List.length g = d ->
  List.length (direction g i m) = d.
Proof.
  intros I Hg. pose proof (get_length i I) as Hold.
  pose proof (inv_avg_dim I) as Havg.
  unfold direction, add, sub, GradientMemory.average.
  rewrite map2_length; rewrite map2_length by congruence; congruence.
Qed.

Lemma coord_direction (n d i k : nat) (g : vec) (m : GradientMemory.t) :
  Inv n d m -> List.length g = d ->
  (coord k (direction g i m)
   == coord k g - coord k (GradientMemory.get i m)
      + coord k (GradientMemory.average m))%Q.
Proof.
  intros I Hg. pose proof (get_length i I) as Hold.
  unfold direction.
  rewrite coord_add.
  - rewrite coord_sub by congruence. reflexivity.
  - pose proof (inv_avg_dim I) as Havg.
    unfold sub, GradientMemory.average.
    rewrite map2_length by congruence. congruence.
Qed.



End EngineClaims.

(** ** Further properties of the class [SAGA] *)

Section WrapperFurther.
Import Py Native SAGA Claims.
Local Open Scope string_scope.
Variable E : VarianceReductionMethod.

(** Every entry of the mapper is found again under its own key. *)
Lemma lookup_of_entry (k : string) (v : Z) :
  In (k, v) (variance_reduction_methods_mapper E) ->
  In k allowed /\ lookup (variance_reduction_methods_mapper E) k = Some v.
Proof.
  unfold variance_reduction_methods_mapper, allowed.
  intros [H|[H|[H|[]]]]; injection H as <- <-;
    (split; [simpl; tauto | reflexivity]).
Qed.

(** Without native solver the setter fails at reading [self._solver]. *)
Lemma setter_without_solver (val : string) (self : SAGA.t) (v : Z) :
  lookup (variance_reduction_methods_mapper E) val = Some v ->
  _solver self = None ->
  set_variance_reduction E val self
  = (inl (AttributeError "'SAGA' object has no attribute '_solver'"), self).
Proof.
  intros L S. unfold set_variance_reduction, contains.
  rewrite L; simpl.
  unfold bind, the_solver. now rewrite S.
Qed.

(** X1.  With the three native constants distinct, a construction with
    valid arguments returns an instance whose property
    [variance_reduction] reads the value given to the constructor. *)
Theorem X1_constructed_property_reads_argument (a : InitArgs) :
  distinct E ->
  valid_config a ->
  exists self,
    SAGA.new E a = inr self
    /\ variance_reduction E self
       = (inr (Some (a_variance_reduction a)), self).
Proof.
  intros D V.
  destruct (valid_base a V) as (b & B).
  pose proof (proj2 (proj2 (proj2 V))) as A.
  destruct (new_accepts E a b B A) as (v & L & N).
  eexists. split; [exact N|].
  rewrite (getter_unfold E
             (mkSAGA b
                (Some (Native.set_variance_reduction v (native_of E b))))
             _ eq_refl).
  unfold get_variance_reduction, Native.set_variance_reduction.
  cbn [n_variance_reduction].
  now rewrite (reverse_lookup E _ v D A L).
Qed.

(** X2.  A construction with valid arguments hands the native solver
    the epoch size (0 when unset), the tolerance, the native sampling
    policy of [rand_type], the step (0 when unset), the seed, and the
    constant that the mapper holds for [variance_reduction]; the
    attributes [step] and [epoch_size] of the instance keep the
    arguments as they were given, unset ones included. *)
Theorem X2_constructor_hands_over_arguments (a : InitArgs) :
  valid_config a ->
  exists self solver,
    SAGA.new E a = inr self
    /\ _solver self = Some solver
    /\ n_epoch_size solver
       = match a_epoch_size a with None => 0%Z | Some e => e end
    /\ n_tol solver = a_tol a
    /\ Base.rand_type_of_string (a_rand_type a) = Some (n_rand_type solver)
    /\ n_step solver = step_passed (a_step a)
    /\ n_seed solver = a_seed a
    /\ lookup (variance_reduction_methods_mapper E) (a_variance_reduction a)
       = Some (n_variance_reduction solver)
    /\ Base.step (super self) = a_step a
    /\ Base.epoch_size (super self) = a_epoch_size a.
Proof.
  intros V.
  destruct (valid_base a V) as (b & B).
  destruct (new_accepts E a b B (proj2 (proj2 (proj2 V)))) as (v & L & N).
  destruct (base_of_inr a b B) as (Hs & He & Ht & _ & Hseed & _ & Hr).
  eexists; eexists. split; [exact N|]. split; [reflexivity|].
  unfold Native.set_variance_reduction, native_of, Native.new, step_passed.
  cbn [n_epoch_size n_tol n_rand_type n_step n_seed n_variance_reduction
       super].
  rewrite Hs, He, Ht, Hseed, Hr.
  repeat split; try reflexivity. exact L.
Qed.

(** X3.  The outcome of a construction: an exception of the base class
    is raised as it is, whatever [variance_reduction] is; when the base
    class accepts, an allowed [variance_reduction] yields an instance
    with the attributes the base class has set, and any other value the
    error of the setter. *)
Theorem X3_constructor_outcome (a : InitArgs) :
  match base_of a with
  | inl e => SAGA.new E a = inl e
  | inr b =>
      if contains (variance_reduction_methods_mapper E)
           (a_variance_reduction a)
      then exists self, SAGA.new E a = inr self /\ super self = b
      else SAGA.new E a
           = inl (ValueError (rejection_message (a_variance_reduction a)))
  end.
Proof.
  destruct (base_of a) as [e|b] eqn:B.
  - unfold SAGA.new. now rewrite init_unfold, B.
  - destruct (contains _ _) eqn:C.
    + apply (contains_mapper E) in C.
      destruct (new_accepts E a b B C) as (v & _ & N).
      eexists. split; [exact N | reflexivity].
    + assert (A : ~ In (a_variance_reduction a) allowed).
      { intros A. apply (contains_mapper E) in A. congruence. }
      now rewrite (new_rejects E a A), B.
Qed.

(** X4.  The outcomes of an assignment to [variance_reduction]: it
    returns exactly when the value is allowed and the instance has its
    native solver, and then the attributes of the base class are
    untouched; otherwise it raises and leaves the instance as it was, a
    [ValueError] for a value that is not allowed and an
    [AttributeError] for an allowed value on an instance without native
    solver.  The lookup in the mapper never raises a [KeyError]. *)
Theorem X4_setter_outcomes (val : string) (self : SAGA.t) :
  match set_variance_reduction E val self with
  | (inr _, after) =>
      In val allowed /\ _solver self <> None /\ super after = super self
  | (inl e, after) =>
      after = self
      /\ ((~ In val allowed /\ exc_type e = "ValueError")
          \/ (In val allowed /\ _solver self = None
              /\ exc_type e = "AttributeError"))
  end.
Proof.
  destruct (contains (variance_reduction_methods_mapper E) val) eqn:C.
  - apply (contains_mapper E) in C.
    destruct (lookup_allowed E val C) as (v & L & _).
    destruct (_solver self) as [solver|] eqn:S.
    + rewrite (setter_accepts E val self solver v L S).
      repeat split; [exact C | discriminate].
    + rewrite (setter_without_solver val self v L S). cbn.
      split; [reflexivity|]. right. auto.
  - assert (A : ~ In val allowed).
    { intros A. apply (contains_mapper E) in A. congruence. }
    rewrite (setter_rejects E val self A). cbn.
    split; [reflexivity|]. left. auto.
Qed.

(** X5.  On an instance that has its native solver, assigning an
    allowed value and then another allowed value leaves the instance as
    assigning the second value alone does: the last assignment wins,
    and assigning the same value twice is assigning it once. *)
Theorem X5_last_assignment_wins
    (s1 s2 : string) (self : SAGA.t) (solver : _SAGA) :
  In s1 allowed ->
  In s2 allowed ->
  _solver self = Some solver ->
  bind (set_variance_reduction E s1)
       (fun _ => set_variance_reduction E s2) self
  = set_variance_reduction E s2 self.
Proof.
  intros A1 A2 S.
  destruct (lookup_allowed E s1 A1) as (v1 & L1 & _).
  destruct (lookup_allowed E s2 A2) as (v2 & L2 & _).
  unfold bind at 1.
  rewrite (setter_accepts E s1 self solver v1 L1 S).
  rewrite (setter_accepts E s2 self solver v2 L2 S).
  rewrite (setter_accepts E s2
             (mkSAGA (super self)
                (Some (Native.set_variance_reduction v1 solver)))
             (Native.set_variance_reduction v1 solver) v2 L2 eq_refl).
  reflexivity.
Qed.

(** X6.  Reading [variance_reduction] never changes the instance.  It
    raises, an [AttributeError], exactly when the instance has no native
    solver; a name it returns is one of the allowed ones, and the
    constant the mapper holds for that name is the method the native
    solver reports. *)
Theorem X6_getter_sound_and_read_only (self : SAGA.t) :
  snd (variance_reduction E self) = self
  /\ match fst (variance_reduction E self) with
     | inl e => _solver self = None /\ exc_type e = "AttributeError"
     | inr None => _solver self <> None
     | inr (Some k) =>
         In k allowed
         /\ exists solver,
              _solver self = Some solver
              /\ lookup (variance_reduction_methods_mapper E) k
                 = Some (get_variance_reduction solver)
     end.
Proof.
  destruct (_solver self) as [solver|] eqn:S.
  - rewrite (getter_unfold E self solver S). cbn [fst snd].
    split; [reflexivity|].
    destruct (find _ _) as [[k v]|] eqn:F; cbn [option_map fst];
      [|discriminate].
    apply find_some in F. destruct F as (I & Hv).
    cbn [snd] in Hv. apply Z.eqb_eq in Hv. subst v.
    destruct (lookup_of_entry k _ I) as (A & L).
    split; [exact A|]. now exists solver.
  - unfold variance_reduction, bind, the_solver. rewrite S. cbn.
    auto.
Qed.

(** X7.  The property is read back through the first name of the mapper
    whose constant matches: were the constants of 'last' and 'avg' the
    same, assigning 'avg' would succeed and the property would then
    read 'last'. *)
Theorem X7_colliding_constants_read_first_name
    (self : SAGA.t) (solver : _SAGA) :
  VarianceReductionMethod_Last E = VarianceReductionMethod_Average E ->
  _solver self = Some solver ->
  exists self',
    set_variance_reduction E "avg" self = (inr tt, self')
    /\ variance_reduction E self' = (inr (Some "last"), self').
Proof.
  intros C S. eexists.
  split; [exact (setter_accepts E "avg" self solver _ eq_refl S)|].
  rewrite (getter_unfold E
             (mkSAGA (super self)
                (Some (Native.set_variance_reduction
                         (VarianceReductionMethod_Average E) solver)))
             _ eq_refl).
  unfold get_variance_reduction, Native.set_variance_reduction,
    variance_reduction_methods_mapper, items.
  cbn [n_variance_reduction find snd].
  now rewrite C, Z.eqb_refl.
Qed.

End WrapperFurther.

Lemma X1_witness :
  Claims.distinct SAGA.tick_enum
  /\ Claims.valid_config SAGA.default_args
  /\ exists self,
       SAGA.new SAGA.tick_enum SAGA.default_args = inr self
       /\ SAGA.variance_reduction SAGA.tick_enum self
          = (inr (Some "last"%string), self).
Proof.
  assert (D : Claims.distinct SAGA.tick_enum).
  { unfold Claims.distinct; simpl.
    repeat constructor; simpl; intuition discriminate. }
  assert (V : Claims.valid_config SAGA.default_args).
  { repeat split; try discriminate; simpl; tauto. }
  split; [exact D|]. split; [exact V|].
  exact (X1_constructed_property_reads_argument SAGA.tick_enum
           SAGA.default_args D V).
Defined.

Lemma X2_witness :
  Claims.valid_config SAGA.default_args
  /\ exists self solver,
       SAGA.new SAGA.tick_enum SAGA.default_args = inr self
       /\ SAGA._solver self = Some solver
       /\ Native.n_epoch_size solver = 0%Z
       /\ Native.n_seed solver = (-1)%Z
       /\ Base.step (SAGA.super self) = None.
Proof.
  assert (V : Claims.valid_config SAGA.default_args).
  { repeat split; try discriminate; simpl; tauto. }
  split; [exact V|].
  destruct (X2_constructor_hands_over_arguments SAGA.tick_enum
              SAGA.default_args V)
    as (self & solver & N & S & He & _ & _ & _ & Hseed & _ & Hstep & _).
  exists self, solver. auto.
Defined.

Lemma X5_witness :
  In "rand"%string Claims.allowed
  /\ In "avg"%string Claims.allowed
  /\ Py.bind (SAGA.set_variance_reduction SAGA.tick_enum "rand")
       (fun _ => SAGA.set_variance_reduction SAGA.tick_enum "avg")
       Claims.blank
     = SAGA.set_variance_reduction SAGA.tick_enum "avg" Claims.blank.
Proof.
  assert (A1 : In "rand"%string Claims.allowed) by (simpl; tauto).
  assert (A2 : In "avg"%string Claims.allowed) by (simpl; tauto).
  split; [exact A1|]. split; [exact A2|].
  exact (X5_last_assignment_wins SAGA.tick_enum "rand" "avg" Claims.blank _
           A1 A2 eq_refl).
Defined.

Lemma X7_witness :
  Native.VarianceReductionMethod_Last (Native.mkVRM 1 1 3)
  = Native.VarianceReductionMethod_Average (Native.mkVRM 1 1 3)
  /\ exists self',
       SAGA.set_variance_reduction (Native.mkVRM 1 1 3) "avg" Claims.blank
       = (inr tt, self')
       /\ SAGA.variance_reduction (Native.mkVRM 1 1 3) self'
          = (inr (Some "last"%string), self').
Proof.
  split; [reflexivity|].
  exact (X7_colliding_constants_read_first_name (Native.mkVRM 1 1 3)
           Claims.blank _ eq_refl eq_refl).
Defined.
